(** * Maneuver risk pipeline: covariance update, orbit radius, collision risk

    A shallow embedding of [maneuver_covariance.py], [maneuver_orbit.py] and
    [maneuver_risk.py], and the properties of the three functions.

    Numbers.  Python floats are modelled by the real numbers: the statements
    are about the exact arithmetic that the code carries out in binary64,
    rounding is not modelled.  Python's exceptions are kept: a division by
    zero raises [ZeroDivisionError], [math.sqrt] of a negative number raises
    [ValueError], [np.linalg.inv] of a singular matrix raises [LinAlgError].

    Arrays.  A numpy vector is a [list R], a numpy matrix is the list of its
    rows.  Slices are [firstn] and [skipn]; a slice assignment rewrites the
    addressed entries of its target.  The code runs on a 6x6 matrix and a 3D
    vector, where every operand of [+] and of a slice assignment has the
    shape of its partner; the properties are stated for these shapes. *)

From Stdlib Require Import Reals Lra Lia List Arith Bool.
Import ListNotations.
Open Scope R_scope.

(** ** Python exceptions as an error monad *)

Module Py.

Inductive exn : Type :=
| ZeroDivisionError
| ValueError
| LinAlgError.

Inductive result (A : Type) : Type :=
| Ok (a : A)
| Raise (e : exn).

Arguments Ok {A} a.
Arguments Raise {A} e.

Definition bind {A B : Type} (c : result A) (k : A -> result B) : result B :=
  match c with
  | Ok a => k a
  | Raise e => Raise e
  end.

(** [x / y] on floats. *)
Definition truediv (x y : R) : result R :=
  if Req_dec_T y 0 then Raise ZeroDivisionError else Ok (x / y).

(** [math.sqrt x]. *)
Definition math_sqrt (x : R) : result R :=
  if Rlt_dec x 0 then Raise ValueError else Ok (sqrt x).

End Py.

Import Py.

Notation "x <- c ;; k" := (Py.bind c (fun x => k))
  (at level 61, c at next level, right associativity).
Notation "' p <- c ;; k" := (Py.bind c (fun p => k))
  (at level 61, p pattern, c at next level, right associativity).

(** ** The numpy operations the code uses *)

Module Np.

Definition vector := list R.
Definition matrix := list (list R).

Definition sum (l : list R) : R := fold_right Rplus 0 l.

(** [M[i, j]]. *)
Definition entry (M : matrix) (i j : nat) : R := nth j (nth i M []) 0.

Arguments entry M (i j)%_nat.

(** [M.shape == (r, c)]. *)
Definition shape (r c : nat) (M : matrix) : Prop :=
  length M = r /\ Forall (fun row => length row = c) M.

Definition zipWith {A B C : Type} (f : A -> B -> C) (l1 : list A) (l2 : list B) : list C :=
  map (fun p => f (fst p) (snd p)) (combine l1 l2).

(** [np.dot] of two vectors. *)
Definition dot (u v : vector) : R := sum (zipWith Rmult u v).

(** [np.linalg.norm v] for a vector: [sqrt (dot v v)]. *)
Definition norm (v : vector) : R := sqrt (dot v v).

(** [v / m], a vector divided by a scalar. *)
Definition vdiv (v : vector) (m : R) : vector := map (fun x => x / m) v.

(** [np.zeros_like v]. *)
Definition zeros_like (v : vector) : vector := map (fun _ => 0) v.

(** [np.zeros((r, c))]. *)
Definition zeros (r c : nat) : matrix := repeat (repeat 0 c) r.

(** [np.eye(n)]. *)
Definition eye (n : nat) : matrix :=
  map (fun i => map (fun j => if (i =? j)%nat then 1 else 0) (seq 0 n)) (seq 0 n).

(** [np.outer u v]. *)
Definition outer (u v : vector) : matrix :=
  map (fun a => map (fun b => a * b) v) u.

(** [k * M], a scalar times a matrix. *)
Definition mscale (k : R) (M : matrix) : matrix := map (map (Rmult k)) M.

(** [A + B] on matrices of one shape. *)
Definition madd (A B : matrix) : matrix := zipWith (zipWith Rplus) A B.

(** [M.T]. *)
Definition transpose (M : matrix) : matrix :=
  map (fun j => map (fun row => nth j row 0) M) (seq 0 (length (hd [] M))).

(** [M[r0:r1, c0:c1] = B] for a block [B] of the shape of the slice: the
    entries of the addressed block are taken from [B], the others are kept. *)
Definition assign_block (r0 r1 c0 c1 : nat) (B M : matrix) : matrix :=
  map (fun ir =>
         map (fun jx =>
                if (r0 <=? fst ir)%nat && (fst ir <? r1)%nat
                   && (c0 <=? fst jx)%nat && (fst jx <? c1)%nat
                then entry B (fst ir - r0) (fst jx - c0)
                else snd jx)
             (combine (seq 0 (length (snd ir))) (snd ir)))
      (combine (seq 0 (length M)) M).

(** [v @ M], a row vector times a matrix. *)
Definition vecmat (v : vector) (M : matrix) : vector :=
  map (fun col => dot v col) (transpose M).

(** [M @ v], a matrix times a column vector. *)
Definition matvec (M : matrix) (v : vector) : vector :=
  map (fun row => dot row v) M.

(** [A @ B]. *)
Definition matmul (A B : matrix) : matrix := map (fun row => vecmat row B) A.

(** Determinant of a 3x3 matrix, developed along the first row. *)
Definition det3 (M : matrix) : R :=
  entry M 0 0 * (entry M 1 1 * entry M 2 2 - entry M 1 2 * entry M 2 1)
  - entry M 0 1 * (entry M 1 0 * entry M 2 2 - entry M 1 2 * entry M 2 0)
  + entry M 0 2 * (entry M 1 0 * entry M 2 1 - entry M 1 1 * entry M 2 0).

(** Adjugate of a 3x3 matrix: the transposed matrix of cofactors. *)
Definition adj3 (M : matrix) : matrix :=
  [ [ entry M 1 1 * entry M 2 2 - entry M 1 2 * entry M 2 1;
      entry M 0 2 * entry M 2 1 - entry M 0 1 * entry M 2 2;
      entry M 0 1 * entry M 1 2 - entry M 0 2 * entry M 1 1 ];
    [ entry M 1 2 * entry M 2 0 - entry M 1 0 * entry M 2 2;
      entry M 0 0 * entry M 2 2 - entry M 0 2 * entry M 2 0;
      entry M 0 2 * entry M 1 0 - entry M 0 0 * entry M 1 2 ];
    [ entry M 1 0 * entry M 2 1 - entry M 1 1 * entry M 2 0;
      entry M 0 1 * entry M 2 0 - entry M 0 0 * entry M 2 1;
      entry M 0 0 * entry M 1 1 - entry M 0 1 * entry M 1 0 ] ].

(** [np.linalg.inv M] at the size the pipeline uses it, 3x3: the inverse
    matrix, and [LinAlgError] when [M] is singular.  That the matrix returned
    is the inverse, and that the error is raised exactly when there is none,
    are [inv_correct] and [invertible3_iff_det] below. *)
Definition inv (M : matrix) : result matrix :=
  if Req_dec_T (det3 M) 0 then Raise LinAlgError
  else Ok (mscale (/ det3 M) (adj3 M)).

End Np.

Import Np.

(** ** maneuver_covariance.py *)

Definition update_covariance_with_vector (cov_matrix : matrix) (delta_v_vector : vector) : matrix :=
  let velocity_uncertainty_scale := 0.05 in
  let delta_v_magnitude := norm delta_v_vector in
  let delta_v_unit :=
    if Rlt_dec 0 delta_v_magnitude
    then vdiv delta_v_vector delta_v_magnitude
    else zeros_like delta_v_vector in
  let Q_velocity :=
    mscale (velocity_uncertainty_scale ^ 2 * delta_v_magnitude ^ 2)
           (outer delta_v_unit delta_v_unit) in
  let P_velocity := map (skipn 3) (skipn 3 cov_matrix) in
  let P_velocity_updated := madd P_velocity Q_velocity in
  let P_cross := map (skipn 3) (firstn 3 cov_matrix) in
  let coupling_factor := 0.1 in
  let P_cross_updated := madd P_cross (mscale coupling_factor Q_velocity) in
  let P_position := map (firstn 3) (firstn 3 cov_matrix) in
  let P_position_updated := madd P_position (mscale coupling_factor Q_velocity) in
  let updated_cov_matrix := zeros 6 6 in
  let updated_cov_matrix := assign_block 0 3 0 3 P_position_updated updated_cov_matrix in
  let updated_cov_matrix := assign_block 3 6 3 6 P_velocity_updated updated_cov_matrix in
  let updated_cov_matrix := assign_block 0 3 3 6 P_cross_updated updated_cov_matrix in
  let updated_cov_matrix := assign_block 3 6 0 3 (transpose P_cross_updated) updated_cov_matrix in
  updated_cov_matrix.

(** ** maneuver_orbit.py *)

(** Earth's gravitational parameter, the default value of [mu]. *)
Definition mu_default : R := 3.986004418e14.

Definition calculate_delta_r (a delta_v mu : R) : result (R * R) :=
  q <- Py.truediv mu a ;;
  v <- Py.math_sqrt q ;;
  let v_new := v + delta_v in
  q' <- Py.truediv mu a ;;
  let E_new := 0.5 * v_new ^ 2 - q' in
  a_new <- Py.truediv (- mu) (2 * E_new) ;;
  let delta_r := a_new - a in
  Ok (delta_r, a_new).

(** ** maneuver_risk.py *)

Section Risk.

(** [scipy.stats.ncx2.cdf x df nc], the distribution function of the
    noncentral chi-square law, is a library function: it is a parameter of
    the development. *)
Variable ncx2_cdf : R -> R -> R -> R.

Definition compute_collision_probability
           (relative_position : vector) (cov_rel : matrix) (collision_radius : R) : result R :=
  let d := relative_position in
  let P_rel := cov_rel in
  match inv P_rel with
  | Raise LinAlgError => Ok 1
  | Raise e => Raise e
  | Ok inv_P_rel =>
      let lambda_param := dot (vecmat d inv_P_rel) d in
      let PR := ncx2_cdf (collision_radius ^ 2) 3 lambda_param in
      Ok PR
  end.

Definition compute_risk (original_risk : R) (delta_v_vector : vector)
           (initial_cov_matrix : matrix) (initial_r : R) : result R :=
  let updated_cov_matrix := update_covariance_with_vector initial_cov_matrix delta_v_vector in
  '(delta_r, a_new) <- calculate_delta_r initial_r (norm delta_v_vector) mu_default ;;
  let relative_position := [delta_r; 0; 0] in
  let cov_rel := map (firstn 3) (firstn 3 updated_cov_matrix) in
  updated_risk <- compute_collision_probability relative_position cov_rel 10 ;;
  Ok (updated_risk * original_risk).

End Risk.

(** * Vocabulary of the properties *)

(** ** Blocks and symmetry of 6x6 matrices *)

Definition symmetric (n : nat) (M : matrix) : Prop :=
  forall i j, (i < n)%nat -> (j < n)%nat -> entry M i j = entry M j i.

(** Rows and columns 0-2. *)
Definition position_block (M : matrix) : matrix := map (firstn 3) (firstn 3 M).

(** Rows and columns 3-5. *)
Definition velocity_block (M : matrix) : matrix := map (skipn 3) (skipn 3 M).

(** The lower-left block (rows 3-5, columns 0-2) is the transpose of the
    upper-right block (rows 0-2, columns 3-5). *)
Definition cross_mirrored (M : matrix) : Prop :=
  forall i j, (i < 3)%nat -> (j < 3)%nat -> entry M (3 + i) j = entry M j (3 + i).

(** Two matrices agree everywhere but in rows 3-5, columns 0-2. *)
Definition agree_outside_lower_left (M1 M2 : matrix) : Prop :=
  forall i j, (i < 6)%nat -> (j < 6)%nat -> ~ (3 <= i /\ j < 3)%nat ->
              entry M1 i j = entry M2 i j.

(** [Q_velocity] without the detour through the unit vector. *)
Definition noise (dv : vector) : matrix := mscale (0.05 ^ 2) (outer dv dv).

(** The assembly of the result from the blocks of the input and the noise:
    [update_covariance_with_vector] from the line of [P_velocity] on. *)
Definition assemble (cov_matrix Q : matrix) : matrix :=
  let P_velocity_updated := madd (map (skipn 3) (skipn 3 cov_matrix)) Q in
  let P_cross_updated := madd (map (skipn 3) (firstn 3 cov_matrix)) (mscale 0.1 Q) in
  let P_position_updated := madd (map (firstn 3) (firstn 3 cov_matrix)) (mscale 0.1 Q) in
  assign_block 3 6 0 3 (transpose P_cross_updated)
    (assign_block 0 3 3 6 P_cross_updated
       (assign_block 3 6 3 6 P_velocity_updated
          (assign_block 0 3 0 3 P_position_updated (zeros 6 6)))).

(** The delta-V of magnitude [m] along [direction]. *)
Definition burn (direction : vector) (m : R) : vector :=
  map (Rmult (m / norm direction)) direction.

(** An input whose position block is not symmetric: entry (0,1) is 1, all
    the others are 0. *)
Definition skewed_position : matrix :=
  [ [0; 1; 0; 0; 0; 0];
    [0; 0; 0; 0; 0; 0];
    [0; 0; 0; 0; 0; 0];
    [0; 0; 0; 0; 0; 0];
    [0; 0; 0; 0; 0; 0];
    [0; 0; 0; 0; 0; 0] ].

(** An input whose cross blocks do not mirror each other: entry (3,0) is 1,
    all the others are 0, among them entry (0,3). *)
Definition unmirrored_cross : matrix :=
  [ [0; 0; 0; 0; 0; 0];
    [0; 0; 0; 0; 0; 0];
    [0; 0; 0; 0; 0; 0];
    [1; 0; 0; 0; 0; 0];
    [0; 0; 0; 0; 0; 0];
    [0; 0; 0; 0; 0; 0] ].

(** ** Orbit *)

(** [E_new] of [calculate_delta_r]: the specific orbital energy after the burn. *)
Definition post_burn_energy (a delta_v mu : R) : R :=
  0.5 * (sqrt (mu / a) + delta_v) ^ 2 - mu / a.

(** ** Covariances *)

(** [M] has an inverse. *)
Definition invertible3 (M : matrix) : Prop :=
  exists B, shape 3 3 B /\ matmul M B = eye 3.

(** A covariance matrix is positive semi-definite. *)
Definition psd (M : matrix) : Prop :=
  forall y, length y = length M -> 0 <= dot y (matvec M y).

(** A distribution function that meets the contract assumed of [ncx2.cdf],
    to instantiate the parameter: the one of the law concentrated at 0. *)
Definition point_mass_cdf (x df nc : R) : R := if Rle_dec 0 x then 1 else 0.

(** ** Vectors and quadratic forms *)

(** [- v]: the burn of the same magnitude in the opposite direction. *)
Definition vopp (v : vector) : vector := map Ropp v.

(** [k * v]. *)
Definition vscale (k : R) (v : vector) : vector := map (Rmult k) v.

(** The quadratic form of [M] at [y]: the variance along [y] when [M] is a
    covariance. *)
Definition quad (M : matrix) (y : vector) : R := dot y (matvec M y).

(** What a caller sees of a result when every value is passed through [f]. *)
Definition map_result {A B : Type} (f : A -> B) (c : result A) : result B :=
  match c with
  | Ok a => Ok (f a)
  | Raise e => Raise e
  end.

(** * Properties *)

(** ** Shapes *)

Ltac destruct_lengths :=
  repeat match goal with
    | H : length ?l = _ |- _ =>
        is_var l; destruct l; simpl in H;
        [ try discriminate H; try clear H
        | try discriminate H; try apply eq_add_S in H ]
    | H : Forall _ (_ :: _) |- _ => inversion H; subst; clear H
    | H : Forall _ [] |- _ => clear H
    end.

Lemma vector3_inv (v : vector) :
  length v = 3%nat -> exists x y z, v = [x; y; z].
Proof.
  intros H. destruct_lengths. eauto.
Qed.

Lemma matrix66_inv (M : matrix) :
  shape 6 6 M ->
  exists r0 r1 r2 r3 r4 r5, M = [r0; r1; r2; r3; r4; r5] /\
    length r0 = 6%nat /\ length r1 = 6%nat /\ length r2 = 6%nat /\
    length r3 = 6%nat /\ length r4 = 6%nat /\ length r5 = 6%nat.
Proof.
  intros [Hr Hc]. destruct_lengths.
  do 6 eexists. split; [reflexivity|]. auto 10.
Qed.

(** Names the six rows and thirty-six entries of a 6x6 matrix. *)
Ltac explode66 H :=
  let H' := fresh in
  destruct (matrix66_inv _ H) as (?r & ?r & ?r & ?r & ?r & ?r & -> & H');
  decompose [and] H'; clear H'; destruct_lengths.

(** ** The process noise in closed form *)

Lemma norm3_zero (x y z : R) : norm [x; y; z] = 0 -> x = 0 /\ y = 0 /\ z = 0.
Proof.
  unfold norm, dot, zipWith, sum. simpl. intros H.
  apply sqrt_eq_0 in H; nra.
Qed.

Lemma norm_nonneg (v : vector) : 0 <= norm v.
Proof. apply sqrt_pos. Qed.

Lemma Q_velocity_noise (x y z : R) :
  let dv := [x; y; z] in
  mscale (0.05 ^ 2 * norm dv ^ 2)
         (outer (if Rlt_dec 0 (norm dv) then vdiv dv (norm dv) else zeros_like dv)
                (if Rlt_dec 0 (norm dv) then vdiv dv (norm dv) else zeros_like dv))
  = noise dv.
Proof.
  intros dv. destruct (Rlt_dec 0 (norm dv)) as [Hpos | Hnpos].
  - unfold noise, mscale, outer, vdiv, dv in *.
    set (m := norm [x; y; z]) in *. simpl.
    repeat (f_equal; try (field; lra)).
  - assert (Hz : norm dv = 0) by (pose proof (norm_nonneg dv); lra).
    destruct (norm3_zero _ _ _ Hz) as (-> & -> & ->).
    unfold noise, mscale, outer, zeros_like. simpl.
    repeat (f_equal; try ring).
Qed.

Lemma update_assemble (cov : matrix) (x y z : R) :
  update_covariance_with_vector cov [x; y; z] = assemble cov (noise [x; y; z]).
Proof.
  unfold update_covariance_with_vector. cbv zeta.
  rewrite Q_velocity_noise. reflexivity.
Qed.

(** ** Evaluating the covariance update on named entries *)

Ltac update_steps :=
  cbn [madd mscale outer map skipn firstn zipWith combine fst snd assign_block
       transpose zeros repeat seq length hd nth entry Nat.leb Nat.ltb andb Nat.sub
       Nat.add].

(** Evaluates [update_covariance_with_vector] on a matrix and a vector whose
    entries are named. *)
Ltac run_update :=
  rewrite ?update_assemble; unfold assemble, noise; update_steps.

Ltac run_update_in H :=
  rewrite ?update_assemble in H; unfold assemble, noise in H;
  cbn [madd mscale outer map skipn firstn zipWith combine fst snd assign_block
       transpose zeros repeat seq length hd nth entry Nat.leb Nat.ltb andb Nat.sub
       Nat.add] in H.

Ltac for_idx6 tac :=
  tac 0%nat; tac 1%nat; tac 2%nat; tac 3%nat; tac 4%nat; tac 5%nat.

(** Instantiates an entrywise hypothesis at every index pair below 6 where
    its side conditions hold. *)
Ltac entry_facts H :=
  for_idx6 ltac:(fun i => for_idx6 ltac:(fun j =>
    first [ let F := fresh "E" in
            pose proof (H i j ltac:(lia) ltac:(lia) ltac:(lia)) as F;
            cbn [entry nth map firstn skipn Nat.add] in F
          | let F := fresh "E" in
            pose proof (H i j ltac:(lia) ltac:(lia)) as F;
            cbn [entry nth map firstn skipn Nat.add] in F
          | idtac ])).

Ltac cases6 i := destruct i as [|[|[|[|[|[|i]]]]]]; try lia.
Ltac cases3 i := destruct i as [|[|[|i]]]; try lia.

Lemma shape_eye6 : shape 6 6 (eye 6).
Proof. split; [reflexivity | repeat constructor]. Qed.

(** ** Symmetry and the cross blocks *)

Lemma symmetric_eye6 : symmetric 6 (eye 6).
Proof. intros i j Hi Hj. cases6 i; cases6 j; reflexivity. Qed.

Lemma symmetric_cross_mirrored (M : matrix) : symmetric 6 M -> cross_mirrored M.
Proof. intros H i j Hi Hj. apply H; lia. Qed.

Lemma update_shape (cov : matrix) (dv : vector) :
  shape 6 6 cov -> length dv = 3%nat -> shape 6 6 (update_covariance_with_vector cov dv).
Proof.
  intros H Hdv. explode66 H. run_update.
  split; [reflexivity | repeat constructor].
Qed.

(** In every output the lower-left block mirrors the upper-right block. *)
Lemma update_cross_mirrored (cov : matrix) (dv : vector) :
  shape 6 6 cov -> length dv = 3%nat ->
  cross_mirrored (update_covariance_with_vector cov dv).
Proof.
  intros H Hdv. explode66 H. run_update.
  intros i j Hi Hj. cases3 i; cases3 j; cbn [entry nth Nat.add]; lra.
Qed.

(** C4. For a symmetric 6x6 input covariance and a 3D delta-V the matrix
    returned by [update_covariance_with_vector] is symmetric. *)
Theorem update_preserves_symmetry (cov : matrix) (dv : vector) :
  shape 6 6 cov -> length dv = 3%nat ->
  symmetric 6 cov ->
  symmetric 6 (update_covariance_with_vector cov dv).
Proof.
  intros H Hdv Hs. explode66 H. run_update.
  entry_facts Hs.
  intros i j Hi Hj. cases6 i; cases6 j; cbn [entry nth]; lra.
Qed.

Lemma update_preserves_symmetry_witness :
  shape 6 6 (eye 6) /\ symmetric 6 (eye 6) /\
  symmetric 6 (update_covariance_with_vector (eye 6) [0.1; 0.2; 0.3]).
Proof.
  split; [exact shape_eye6 | split; [exact symmetric_eye6 |]].
  apply (update_preserves_symmetry (eye 6) [0.1; 0.2; 0.3]).
  - exact shape_eye6.
  - reflexivity.
  - exact symmetric_eye6.
Defined.

(** C5, as stated, fails: the output for [skewed_position] and a zero burn
    has 1 at (0,1) and 0 at (1,0). *)
Lemma update_output_not_always_symmetric :
  shape 6 6 skewed_position /\
  ~ symmetric 6 (update_covariance_with_vector skewed_position [0; 0; 0]).
Proof.
  split; [split; [reflexivity | repeat constructor] |].
  intros Hs. specialize (Hs 0%nat 1%nat ltac:(lia) ltac:(lia)).
  unfold skewed_position in Hs. run_update_in Hs. lra.
Qed.

(** C5, amended. The output is symmetric exactly when the position block and
    the velocity block of the input are symmetric, whatever the two cross
    blocks of the input are. *)
Theorem update_symmetric_iff_diagonal_blocks (cov : matrix) (dv : vector) :
  shape 6 6 cov -> length dv = 3%nat ->
  (symmetric 6 (update_covariance_with_vector cov dv) <->
   symmetric 3 (position_block cov) /\ symmetric 3 (velocity_block cov)).
Proof.
  intros H Hdv. explode66 H. unfold position_block, velocity_block.
  run_update. split.
  - intros Hs. entry_facts Hs.
    split; intros i j Hi Hj; cases3 i; cases3 j; cbn [entry nth]; lra.
  - intros [Hp Hv]. entry_facts Hp. entry_facts Hv.
    intros i j Hi Hj. cases6 i; cases6 j; cbn [entry nth]; lra.
Qed.

Lemma update_symmetric_iff_diagonal_blocks_witness :
  shape 6 6 skewed_position /\
  (symmetric 6 (update_covariance_with_vector skewed_position [0; 0; 0]) <->
   symmetric 3 (position_block skewed_position) /\
   symmetric 3 (velocity_block skewed_position)).
Proof.
  assert (Hshape : shape 6 6 skewed_position)
    by (split; [reflexivity | repeat constructor]).
  split; [exact Hshape |].
  apply (update_symmetric_iff_diagonal_blocks skewed_position [0; 0; 0]).
  - exact Hshape.
  - reflexivity.
Defined.

(** ** The zero burn *)

(** C3, as stated, fails: for [unmirrored_cross] the zero burn returns 0 at
    (3,0), the mirror of the input's entry (0,3), where the input has 1. *)
Lemma zero_burn_not_identity_on_every_matrix :
  shape 6 6 unmirrored_cross /\
  ~ (forall i j, (i < 6)%nat -> (j < 6)%nat ->
       entry (update_covariance_with_vector unmirrored_cross [0; 0; 0]) i j
       = entry unmirrored_cross i j).
Proof.
  split; [split; [reflexivity | repeat constructor] |].
  intros Hid. specialize (Hid 3%nat 0%nat ltac:(lia) ltac:(lia)).
  unfold unmirrored_cross in Hid. run_update_in Hid. lra.
Qed.

(** C3, amended. The zero burn returns the input itself exactly when the
    input's lower-left block is the transpose of its upper-right block; every
    symmetric input is such a matrix ([symmetric_cross_mirrored]). *)
Theorem zero_burn_identity_iff_cross_mirrored (cov : matrix) :
  shape 6 6 cov ->
  (update_covariance_with_vector cov [0; 0; 0] = cov <-> cross_mirrored cov).
Proof.
  intros H. explode66 H. run_update. split.
  - intros Heq. injection Heq as; subst.
    intros i j Hi Hj. cases3 i; cases3 j; cbn [entry nth Nat.add]; lra.
  - intros Hm.
    for_idx6 ltac:(fun i => for_idx6 ltac:(fun j =>
      try (let F := fresh "E" in
           pose proof (Hm i j ltac:(lia) ltac:(lia)) as F;
           cbn [entry nth Nat.add] in F))).
    repeat (f_equal; try lra).
Qed.

Lemma zero_burn_identity_iff_cross_mirrored_witness :
  shape 6 6 (eye 6) /\
  (update_covariance_with_vector (eye 6) [0; 0; 0] = eye 6 <-> cross_mirrored (eye 6)).
Proof.
  split; [exact shape_eye6 |].
  apply (zero_burn_identity_iff_cross_mirrored (eye 6)). exact shape_eye6.
Defined.

(** ** The lower-left block of the input is never read *)

(** C10. Two 6x6 inputs that differ only in the lower-left block (rows 3-5,
    columns 0-2) give the same output for every 3D delta-V. *)
Theorem lower_left_block_ignored (cov1 cov2 : matrix) (dv : vector) :
  shape 6 6 cov1 -> shape 6 6 cov2 -> length dv = 3%nat ->
  agree_outside_lower_left cov1 cov2 ->
  update_covariance_with_vector cov1 dv = update_covariance_with_vector cov2 dv.
Proof.
  intros H1 H2 Hdv Hagree. explode66 H1. explode66 H2.
  entry_facts Hagree. run_update.
  repeat (f_equal; try lra).
Qed.

Lemma lower_left_block_ignored_witness :
  shape 6 6 (zeros 6 6) /\ shape 6 6 unmirrored_cross /\
  agree_outside_lower_left (zeros 6 6) unmirrored_cross /\
  update_covariance_with_vector (zeros 6 6) [0.1; 0.2; 0.3]
  = update_covariance_with_vector unmirrored_cross [0.1; 0.2; 0.3].
Proof.
  assert (Hu : shape 6 6 unmirrored_cross)
    by (split; [reflexivity | repeat constructor]).
  assert (Hz : shape 6 6 (zeros 6 6))
    by (split; [reflexivity | repeat constructor]).
  assert (Ha : agree_outside_lower_left (zeros 6 6) unmirrored_cross).
  { intros i j Hi Hj Hout. cases6 i; cases6 j; cbn; lra. }
  split; [exact Hz | split; [exact Hu | split; [exact Ha |]]].
  apply (lower_left_block_ignored (zeros 6 6) unmirrored_cross [0.1; 0.2; 0.3]).
  - exact Hz.
  - exact Hu.
  - reflexivity.
  - exact Ha.
Defined.

(** ** Burns of growing magnitude along one direction *)

Lemma norm3_pos (x y z : R) : [x; y; z] <> [0; 0; 0] -> 0 < norm [x; y; z].
Proof.
  intros Hd. pose proof (norm_nonneg [x; y; z]) as Hn.
  destruct (Req_dec_T (norm [x; y; z]) 0) as [Hz | Hz]; [| lra].
  destruct (norm3_zero _ _ _ Hz) as (-> & -> & ->). contradiction.
Qed.

Lemma norm3_scale (c x y z : R) :
  0 <= c -> norm [c * x; c * y; c * z] = c * norm [x; y; z].
Proof.
  intros Hc. unfold norm, dot, zipWith, sum. simpl.
  replace (c * x * (c * x) + (c * y * (c * y) + (c * z * (c * z) + 0)))
    with ((c * c) * (x * x + (y * y + (z * z + 0)))) by ring.
  rewrite sqrt_mult_alt by nra. rewrite sqrt_square by assumption. reflexivity.
Qed.

(** [burn d m] has magnitude [m]. *)
Lemma norm_burn (d : vector) (m : R) :
  length d = 3%nat -> d <> [0; 0; 0] -> 0 <= m -> norm (burn d m) = m.
Proof.
  intros Hlen Hd Hm. destruct_lengths. rename r into x, r0 into y, r1 into z.
  pose proof (norm3_pos _ _ _ Hd) as Hn.
  unfold burn. cbn [map]. rewrite norm3_scale.
  - field. lra.
  - apply Rmult_le_pos; [assumption | left; apply Rinv_0_lt_compat; assumption].
Qed.

(** C7, as stated, fails: along [1; 0; 0] the velocity-block diagonal entry
    at (4,4) is the same for magnitude 0 and for magnitude 1. *)
Lemma velocity_diagonal_not_strict_in_every_entry :
  [1; 0; 0] <> [0; 0; 0] /\ 0 <= 0 < 1 /\
  ~ (forall k, (k < 3)%nat ->
       entry (update_covariance_with_vector (eye 6) (burn [1; 0; 0] 0)) (3 + k) (3 + k)
       < entry (update_covariance_with_vector (eye 6) (burn [1; 0; 0] 1)) (3 + k) (3 + k)).
Proof.
  split; [intros H; injection H as H; lra |].
  split; [lra |].
  intros Hlt. specialize (Hlt 1%nat ltac:(lia)).
  unfold burn, eye in Hlt. cbn [map seq Nat.eqb] in Hlt.
  run_update_in Hlt.
  set (c0 := 0 / norm [1; 0; 0]) in Hlt. set (c1 := 1 / norm [1; 0; 0]) in Hlt.
  nra.
Qed.

(** C7, amended. Along a fixed nonzero direction [d], for magnitudes
    [0 <= m1 < m2], no diagonal entry of the velocity block decreases, and
    the entry at index [k] grows strictly exactly when [d] has a nonzero
    component [k]. *)
Theorem velocity_diagonal_monotone (cov : matrix) (d : vector) (m1 m2 : R) (k : nat) :
  shape 6 6 cov -> length d = 3%nat -> d <> [0; 0; 0] ->
  0 <= m1 < m2 -> (k < 3)%nat ->
  let diag m := entry (update_covariance_with_vector cov (burn d m)) (3 + k) (3 + k) in
  diag m1 <= diag m2 /\ (diag m1 < diag m2 <-> nth k d 0 <> 0).
Proof.
  intros H Hlen Hd Hm Hk diag. subst diag. explode66 H.
  match goal with Hd : [?x; ?y; ?z] <> _ |- _ => pose proof (norm3_pos x y z Hd) as Hn end.
  unfold burn. cbn [map].
  match type of Hn with 0 < ?n => set (nd := n) in * end.
  assert (Hc : 0 <= m1 / nd < m2 / nd).
  { assert (0 < / nd) by (apply Rinv_0_lt_compat; assumption).
    unfold Rdiv. split; nra. }
  set (c1 := m1 / nd) in *. set (c2 := m2 / nd) in *.
  assert (Hsq : c1 * c1 < c2 * c2) by nra.
  run_update.
  cases3 k; cbn [entry nth Nat.add];
    match goal with
    | |- _ + _ * (_ * ?t * _) <= _ /\ _ =>
        pose proof (Rle_0_sqr t) as Ht; unfold Rsqr in Ht;
        destruct (Req_dec_T t 0) as [Hz | Hnz];
        [ rewrite Hz; split; [lra | split; [lra | tauto]]
        | assert (0 < t * t) by nra; split; [nra | split; [tauto | nra]] ]
    end.
Qed.

Lemma velocity_diagonal_monotone_witness :
  shape 6 6 (eye 6) /\ [0.1; 0.2; 0.3] <> [0; 0; 0] /\ 0 <= 1 < 2 /\
  let diag m :=
    entry (update_covariance_with_vector (eye 6) (burn [0.1; 0.2; 0.3] m)) 3 3 in
  diag 1 <= diag 2 /\ (diag 1 < diag 2 <-> nth 0 [0.1; 0.2; 0.3] 0 <> 0).
Proof.
  assert (Hd : [0.1; 0.2; 0.3] <> [0; 0; 0]) by (intros H; injection H as H; lra).
  assert (Hm : 0 <= 1 < 2) by lra.
  split; [exact shape_eye6 | split; [exact Hd | split; [exact Hm |]]].
  apply (velocity_diagonal_monotone (eye 6) [0.1; 0.2; 0.3] 1 2 0).
  - exact shape_eye6.
  - reflexivity.
  - exact Hd.
  - exact Hm.
  - lia.
Defined.

(** ** The orbit radius after a burn *)

Lemma mu_default_pos : 0 < mu_default.
Proof. unfold mu_default. lra. Qed.

Lemma circular_speed_sqr (a mu : R) :
  0 < a -> 0 < mu -> sqrt (mu / a) * sqrt (mu / a) = mu / a /\ 0 < sqrt (mu / a) /\ 0 < mu / a.
Proof.
  intros Ha Hmu.
  assert (Hq : 0 < mu / a) by (apply Rdiv_lt_0_compat; assumption).
  split; [apply sqrt_sqrt; lra | split; [apply sqrt_lt_R0; assumption | assumption]].
Qed.

(** With [a > 0] and [mu > 0] the only exception is the division by a zero
    energy. *)
Lemma calculate_delta_r_defined (a delta_v mu : R) :
  0 < a -> 0 < mu -> post_burn_energy a delta_v mu <> 0 ->
  calculate_delta_r a delta_v mu
  = Ok (- mu / (2 * post_burn_energy a delta_v mu) - a,
        - mu / (2 * post_burn_energy a delta_v mu)).
Proof.
  intros Ha Hmu HE. destruct (circular_speed_sqr a mu Ha Hmu) as (_ & _ & Hq).
  unfold calculate_delta_r, Py.truediv, Py.math_sqrt, Py.bind.
  destruct (Req_dec_T a 0) as [Hz | _]; [lra |].
  destruct (Rlt_dec (mu / a) 0) as [Hneg | _]; [lra |].
  fold (post_burn_energy a delta_v mu).
  destruct (Req_dec_T (2 * post_burn_energy a delta_v mu) 0) as [Hz | _]; [lra |].
  reflexivity.
Qed.

Lemma calculate_delta_r_zero_energy (a delta_v mu : R) :
  0 < a -> 0 < mu -> post_burn_energy a delta_v mu = 0 ->
  calculate_delta_r a delta_v mu = Raise ZeroDivisionError.
Proof.
  intros Ha Hmu HE. destruct (circular_speed_sqr a mu Ha Hmu) as (_ & _ & Hq).
  unfold calculate_delta_r, Py.truediv, Py.math_sqrt, Py.bind.
  destruct (Req_dec_T a 0) as [Hz | _]; [lra |].
  destruct (Rlt_dec (mu / a) 0) as [Hneg | _]; [lra |].
  fold (post_burn_energy a delta_v mu).
  destruct (Req_dec_T (2 * post_burn_energy a delta_v mu) 0) as [_ | Hnz]; [reflexivity | lra].
Qed.

Lemma zero_burn_round_trip (a mu : R) :
  0 < a -> 0 < mu -> calculate_delta_r a 0 mu = Ok (0, a).
Proof.
  intros Ha Hmu. destruct (circular_speed_sqr a mu Ha Hmu) as (Hsq & Hv & Hq).
  assert (HE : post_burn_energy a 0 mu = - (mu / a) / 2).
  { unfold post_burn_energy. set (v := sqrt (mu / a)) in *. nra. }
  rewrite calculate_delta_r_defined by (try assumption; rewrite HE; lra).
  rewrite HE. f_equal. f_equal; field; lra.
Qed.



(** The sign of [delta_r] is the sign of the change of the squared speed,
    as long as the energy stays negative. *)
Lemma delta_r_sign (a delta_v mu : R) :
  0 < a -> 0 < mu -> post_burn_energy a delta_v mu < 0 ->
  let v := sqrt (mu / a) in
  let delta_r := - mu / (2 * post_burn_energy a delta_v mu) - a in
  (0 < delta_v * (2 * v + delta_v) -> 0 < delta_r) /\
  (delta_v * (2 * v + delta_v) < 0 -> delta_r < 0).
Proof.
  intros Ha Hmu HE v delta_r.
  destruct (circular_speed_sqr a mu Ha Hmu) as (Hsq & Hv & Hq).
  fold v in Hsq, Hv.
  assert (Haq : a * (mu / a) = mu) by (field; lra).
  set (E := post_burn_energy a delta_v mu) in *.
  assert (HEv : E = 0.5 * (v + delta_v) ^ 2 - mu / a) by reflexivity.
  assert (Hav : a * (v * v) = mu) by (rewrite Hsq; exact Haq).
  assert (Hgap : mu - a * (- (2 * E)) = a * (delta_v * (2 * v + delta_v))).
  { rewrite HEv. generalize dependent (mu / a). intros t. intros. nra. }
  assert (Hden : 0 < - (2 * E)) by lra.
  assert (Hdr : delta_r = (mu - a * (- (2 * E))) / (- (2 * E))).
  { unfold delta_r. field. lra. }
  rewrite Hdr, Hgap. split; intros Hs.
  - apply Rdiv_lt_0_compat; [| assumption].
    apply Rmult_lt_0_compat; assumption.
  - assert (Hneg : a * (delta_v * (2 * v + delta_v)) < 0) by nra.
    assert (Hinv : 0 < / (- (2 * E))) by (apply Rinv_0_lt_compat; assumption).
    unfold Rdiv. nra.
Qed.

Lemma circular_speed_one : sqrt (mu_default / mu_default) = 1.
Proof.
  replace (mu_default / mu_default) with 1
    by (field; pose proof mu_default_pos; lra).
  exact sqrt_1.
Qed.

(** C6, as stated, fails in both halves, here on the orbit of circular speed
    1 m/s ([a = mu]).  A burn of +1 m/s makes the energy positive and
    [delta_r] negative; a burn of -2.25 m/s reverses the motion at a higher
    speed, the energy stays negative and [delta_r] is positive. *)
Lemma radius_sign_fails_for_large_burns :
  (0 < mu_default /\ 0 < 1 /\
   exists delta_r a_new,
     calculate_delta_r mu_default 1 mu_default = Ok (delta_r, a_new) /\ delta_r < 0)
  /\
  (- 2.25 < 0 /\ post_burn_energy mu_default (- 2.25) mu_default < 0 /\
   exists delta_r a_new,
     calculate_delta_r mu_default (- 2.25) mu_default = Ok (delta_r, a_new) /\ 0 < delta_r).
Proof.
  pose proof mu_default_pos as Hmu.
  assert (Hone : mu_default / mu_default = 1) by (field; lra).
  assert (HE1 : post_burn_energy mu_default 1 mu_default = 1).
  { unfold post_burn_energy. rewrite circular_speed_one, Hone. lra. }
  assert (HE2 : post_burn_energy mu_default (- 2.25) mu_default = - 0.21875).
  { unfold post_burn_energy. rewrite circular_speed_one, Hone. lra. }
  split.
  - split; [assumption | split; [lra |]].
    do 2 eexists. split.
    + apply calculate_delta_r_defined; try assumption. rewrite HE1. lra.
    + rewrite HE1. lra.
  - split; [lra | split; [rewrite HE2; lra |]].
    do 2 eexists. split.
    + apply calculate_delta_r_defined; try assumption. rewrite HE2. lra.
    + rewrite HE2. lra.
Qed.

(** The same on a low Earth orbit: at [a = 7000 km] a prograde burn of
    4000 m/s exceeds the escape speed, the energy becomes positive and both
    [a_new] and [delta_r] are negative. *)
Lemma escape_burn_from_low_orbit :
  0 < post_burn_energy 7000000 4000 mu_default /\
  exists delta_r a_new,
    calculate_delta_r 7000000 4000 mu_default = Ok (delta_r, a_new) /\
    a_new < 0 /\ delta_r < 0.
Proof.
  pose proof mu_default_pos as Hmu.
  destruct (circular_speed_sqr 7000000 mu_default ltac:(lra) Hmu) as (Hsq & Hv & Hq).
  assert (HE : 0 < post_burn_energy 7000000 4000 mu_default).
  { unfold post_burn_energy.
    assert (Hlo : 49000000 < mu_default / 7000000) by (unfold mu_default; lra).
    assert (Hhi : mu_default / 7000000 < 57000000) by (unfold mu_default; lra).
    set (v := sqrt (mu_default / 7000000)) in *.
    assert (Hv7 : 7000 < v) by nra.
    nra. }
  split; [exact HE |].
  do 2 eexists. split; [apply calculate_delta_r_defined; lra |].
  assert (Hneg : - mu_default / (2 * post_burn_energy 7000000 4000 mu_default) < 0).
  { unfold Rdiv.
    assert (0 < / (2 * post_burn_energy 7000000 4000 mu_default))
      by (apply Rinv_0_lt_compat; lra).
    nra. }
  split; lra.
Qed.

(** C6, amended. For [a > 0]: a positive [delta_v] for which the post-burn
    energy remains negative yields a positive [delta_r]; a negative [delta_v]
    above [- 2 * sqrt (mu / a)], for which the energy is always negative,
    yields a negative [delta_r]. *)
Theorem radius_sign_consistency (a delta_v : R) :
  0 < a ->
  (0 < delta_v -> post_burn_energy a delta_v mu_default < 0 ->
   exists delta_r a_new,
     calculate_delta_r a delta_v mu_default = Ok (delta_r, a_new) /\ 0 < delta_r)
  /\
  (delta_v < 0 -> - 2 * sqrt (mu_default / a) < delta_v ->
   post_burn_energy a delta_v mu_default < 0 /\
   exists delta_r a_new,
     calculate_delta_r a delta_v mu_default = Ok (delta_r, a_new) /\ delta_r < 0).
Proof.
  intros Ha. pose proof mu_default_pos as Hmu.
  destruct (circular_speed_sqr a mu_default Ha Hmu) as (Hsq & Hv & Hq).
  split.
  - intros Hdv HE.
    do 2 eexists. split; [apply calculate_delta_r_defined; try assumption; lra |].
    apply (delta_r_sign a delta_v mu_default Ha Hmu HE).
    apply Rmult_lt_0_compat; lra.
  - intros Hdv Hlow.
    assert (HE : post_burn_energy a delta_v mu_default < 0).
    { unfold post_burn_energy. set (v := sqrt (mu_default / a)) in *. nra. }
    split; [exact HE |].
    do 2 eexists. split; [apply calculate_delta_r_defined; try assumption; lra |].
    apply (delta_r_sign a delta_v mu_default Ha Hmu HE).
    set (v := sqrt (mu_default / a)) in *. nra.
Qed.

Lemma radius_sign_consistency_witness :
  (exists delta_r a_new,
     calculate_delta_r mu_default 0.25 mu_default = Ok (delta_r, a_new) /\ 0 < delta_r)
  /\
  (exists delta_r a_new,
     calculate_delta_r mu_default (- 0.25) mu_default = Ok (delta_r, a_new) /\ delta_r < 0).
Proof.
  pose proof mu_default_pos as Hmu.
  assert (Hone : mu_default / mu_default = 1) by (field; lra).
  split.
  - apply (proj1 (radius_sign_consistency mu_default 0.25 Hmu)).
    + lra.
    + unfold post_burn_energy. rewrite circular_speed_one, Hone. lra.
  - apply (proj2 (radius_sign_consistency mu_default (- 0.25) Hmu)).
    + lra.
    + rewrite circular_speed_one. lra.
Defined.

(** ** The demo scenario of maneuver_orbit.py: a = 2000 km, delta_v = 500 m/s *)

Lemma Rdiv_opp_opp_cancel (x y : R) : y <> 0 -> - x / - y = x / y.
Proof. intros Hy. field. assumption. Qed.

Lemma circular_speed_2000km :
  14117.373 < sqrt (mu_default / 2000000) < 14117.374.
Proof.
  replace (mu_default / 2000000) with 199300220.9 by (unfold mu_default; lra).
  split.
  - rewrite <- (sqrt_square 14117.373) at 1 by lra.
    apply sqrt_lt_1_alt. lra.
  - rewrite <- (sqrt_square 14117.374) at 1 by lra.
    apply sqrt_lt_1_alt. lra.
Qed.

Lemma scenario_energy :
  post_burn_energy 2000000 500 mu_default
  = 500 * sqrt (mu_default / 2000000) + 125000 - 99650110.45.
Proof.
  destruct (circular_speed_sqr 2000000 mu_default ltac:(lra) mu_default_pos) as (Hsq & _ & _).
  unfold post_burn_energy.
  replace (mu_default / 2000000) with 199300220.9 in * by (unfold mu_default; lra).
  set (v := sqrt 199300220.9) in *. nra.
Qed.

Lemma scenario_radius :
  exists delta_r a_new,
    calculate_delta_r 2000000 500 mu_default = Ok (delta_r, a_new) /\
    a_new = - mu_default / (2 * (0.5 * (sqrt (mu_default / 2000000) + 500) ^ 2
                                 - mu_default / 2000000)) /\
    delta_r = a_new - 2000000 /\
    2155379.3 < a_new < 2155379.4.
Proof.
  pose proof circular_speed_2000km as Hv. pose proof scenario_energy as HE.
  do 2 eexists. split; [| split; [| split]].
  - apply calculate_delta_r_defined; [lra | exact mu_default_pos | lra].
  - reflexivity.
  - reflexivity.
  - rewrite HE. set (v := sqrt (mu_default / 2000000)) in *.
    assert (Hd : 0 < 199050220.9 - 1000 * v) by lra.
    replace (2 * (500 * v + 125000 - 99650110.45))
      with (- (199050220.9 - 1000 * v)) by lra.
    rewrite Rdiv_opp_opp_cancel by lra.
    unfold mu_default. split.
    + apply Rmult_lt_reg_r with (199050220.9 - 1000 * v); [assumption |].
      unfold Rdiv. rewrite Rmult_assoc, Rinv_l by lra. lra.
    + apply Rmult_lt_reg_r with (199050220.9 - 1000 * v); [assumption |].
      unfold Rdiv. rewrite Rmult_assoc, Rinv_l by lra. lra.
Qed.

(** C9, as stated, fails: the returned [a_new] is not within 10 percent of
    2,515,000 m; it is about 2,155,379 m. *)
Lemma scenario_radius_not_near_2515000 :
  ~ (exists delta_r a_new,
       calculate_delta_r 2000000 500 mu_default = Ok (delta_r, a_new) /\
       Rabs (a_new - 2515000) <= 251500).
Proof.
  intros (delta_r & a_new & Hrun & Hnear).
  destruct scenario_radius as (dr & an & Hrun' & _ & _ & Hb).
  rewrite Hrun' in Hrun. injection Hrun as _ <-.
  revert Hnear. unfold Rabs. destruct (Rcase_abs (an - 2515000)); lra.
Qed.

(** C9, amended. [calculate_delta_r 2000000 500] with the default [mu]
    returns the [a_new] of the closed vis-viva formula, which lies between
    2,155,379.3 m and 2,155,379.4 m, and [delta_r = a_new - 2000000]. *)
Theorem scenario_radius_value :
  exists delta_r a_new,
    calculate_delta_r 2000000 500 mu_default = Ok (delta_r, a_new) /\
    a_new = - mu_default / (2 * (0.5 * (sqrt (mu_default / 2000000) + 500) ^ 2
                                 - mu_default / 2000000)) /\
    2155379.3 < a_new < 2155379.4 /\
    155379.3 < delta_r < 155379.4.
Proof.
  destruct scenario_radius as (dr & an & Hrun & Hform & Hdr & Hb).
  exists dr, an. repeat split; try assumption; lra.
Qed.

(** ** Inversion of 3x3 matrices *)

Ltac name33 H :=
  let Hr := fresh in let Hc := fresh in
  destruct H as [Hr Hc]; destruct_lengths.

Ltac linalg_steps :=
  cbn [matmul vecmat matvec dot sum zipWith map combine fst snd fold_right transpose
       seq length hd nth entry mscale adj3 eye Nat.eqb].

Lemma det3_matmul (A B : matrix) :
  shape 3 3 A -> shape 3 3 B -> det3 (matmul A B) = det3 A * det3 B.
Proof.
  intros HA HB. name33 HA. name33 HB.
  unfold det3. linalg_steps. ring.
Qed.

Lemma det3_eye : det3 (eye 3) = 1.
Proof. unfold det3. linalg_steps. ring. Qed.

(** What [inv] returns is the inverse. *)
Lemma inv_correct (M B : matrix) :
  shape 3 3 M -> inv M = Ok B ->
  shape 3 3 B /\ matmul M B = eye 3 /\ matmul B M = eye 3.
Proof.
  intros HM Hinv. unfold inv in Hinv.
  destruct (Req_dec_T (det3 M) 0) as [Hz | Hnz]; [discriminate |].
  injection Hinv as <-. name33 HM.
  split; [split; [reflexivity | repeat constructor] |].
  unfold det3 in *. cbn [entry nth] in *.
  split; linalg_steps; repeat (f_equal; try (field; assumption)).
Qed.

(** [inv] raises [LinAlgError] exactly on the matrices without inverse. *)
Lemma invertible3_iff_det (M : matrix) :
  shape 3 3 M -> (invertible3 M <-> det3 M <> 0).
Proof.
  intros HM. split.
  - intros (B & HB & Hmul) Hz.
    pose proof (det3_matmul M B HM HB) as Hdet.
    rewrite Hmul, det3_eye, Hz in Hdet. lra.
  - intros Hnz. exists (mscale (/ det3 M) (adj3 M)).
    assert (Hinv : inv M = Ok (mscale (/ det3 M) (adj3 M))).
    { unfold inv. destruct (Req_dec_T (det3 M) 0); [contradiction | reflexivity]. }
    destruct (inv_correct _ _ HM Hinv) as (HB & Hmul & _). split; assumption.
Qed.


(** Without positive semi-definiteness the noncentrality can be negative,
    outside the domain of the noncentral chi-square law: for minus the
    identity and [d = [1; 0; 0]] it is -1. *)
Lemma noncentrality_negative_without_psd :
  exists B, inv (mscale (-1) (eye 3)) = Ok B /\
            dot (vecmat [1; 0; 0] B) [1; 0; 0] = -1.
Proof.
  assert (Hdet : det3 (mscale (-1) (eye 3)) = -1) by (unfold det3; cbn; ring).
  unfold inv. destruct (Req_dec_T (det3 (mscale (-1) (eye 3))) 0) as [Hz | _]; [lra |].
  eexists. split; [reflexivity |].
  rewrite Hdet. replace (/ -1) with (-1) by lra.
  linalg_steps. ring.
Qed.


(** The position block of a positive semi-definite 6x6 matrix is positive
    semi-definite. *)
Lemma psd_position_block (cov : matrix) :
  shape 6 6 cov -> psd cov -> psd (position_block cov).
Proof.
  intros H Hpsd. explode66 H. unfold position_block. cbn [map firstn].
  intros y Hy. cbn [length] in Hy. destruct_lengths.
  match goal with |- 0 <= dot [?a; ?b; ?c] _ =>
    assert (Hq := Hpsd [a; b; c; 0; 0; 0] eq_refl) end.
  revert Hq. linalg_steps. intros Hq. lra.
Qed.


(** ** Collision probability and updated risk *)

Section RiskProperties.

Variable ncx2_cdf : R -> R -> R -> R.

(** The contract of the library function: for a positive number of degrees
    of freedom and a noncentrality that is not negative, the distribution
    function takes its values in [0, 1]. *)
Hypothesis ncx2_cdf_range :
  forall x df nc, 0 < df -> 0 <= nc -> 0 <= ncx2_cdf x df nc <= 1.





(** The pipeline stops with [ZeroDivisionError] when the post-burn energy is
    zero. *)
Lemma compute_risk_zero_energy (original_risk : R) (dv : vector) (cov : matrix) (a : R) :
  0 < a -> post_burn_energy a (norm dv) mu_default = 0 ->
  compute_risk ncx2_cdf original_risk dv cov a = Raise ZeroDivisionError.
Proof.
  intros Ha HE. unfold compute_risk.
  rewrite calculate_delta_r_zero_energy by (try assumption; exact mu_default_pos).
  reflexivity.
Qed.


End RiskProperties.

(** ** Instances *)


Lemma shape_eye3 : shape 3 3 (eye 3).
Proof. split; [reflexivity | repeat constructor]. Qed.


Lemma invertible_eye3 : invertible3 (eye 3).
Proof. apply invertible3_iff_det; [exact shape_eye3 | rewrite det3_eye; lra]. Qed.






(** * Further properties of the covariance update *)

Lemma vector6_inv (v : vector) :
  length v = 6%nat -> exists a b c d e f, v = [a; b; c; d; e; f].
Proof.
  intros H. destruct_lengths. do 6 eexists. reflexivity.
Qed.

(** Replaces variables by the variables they are equal to. *)
Ltac subst_vars :=
  repeat match goal with
    | E : ?a = ?b |- _ => first [ is_var a; subst a | is_var b; subst b ]
    end.

(** X1. The normalisation by the magnitude cancels: for every 6x6 input and
    every 3D delta-V, the zero vector included, the position block and the
    upper-right cross block gain [0.1 * 0.05^2 * dv_i * dv_j], the velocity
    block gains [0.05^2 * dv_i * dv_j], and the lower-left block is the
    transpose of the new upper-right block. *)
Theorem update_adds_outer_product (cov : matrix) (dv : vector) (i j : nat) :
  shape 6 6 cov -> length dv = 3%nat -> (i < 3)%nat -> (j < 3)%nat ->
  let out := update_covariance_with_vector cov dv in
  let q := 0.05 ^ 2 * (nth i dv 0 * nth j dv 0) in
  entry out i j = entry cov i j + 0.1 * q /\
  entry out i (3 + j) = entry cov i (3 + j) + 0.1 * q /\
  entry out (3 + j) i = entry cov i (3 + j) + 0.1 * q /\
  entry out (3 + i) (3 + j) = entry cov (3 + i) (3 + j) + q.
Proof.
  intros H Hdv Hi Hj out q. subst out q. explode66 H. run_update.
  cases3 i; cases3 j; cbn [entry nth Nat.add]; repeat split; lra.
Qed.

Lemma update_adds_outer_product_witness :
  let out := update_covariance_with_vector (eye 6) [0.1; 0.2; 0.3] in
  let q := 0.05 ^ 2 * (nth 0 [0.1; 0.2; 0.3] 0 * nth 1 [0.1; 0.2; 0.3] 0) in
  entry out 0 1 = entry (eye 6) 0 1 + 0.1 * q /\
  entry out 0 (3 + 1) = entry (eye 6) 0 (3 + 1) + 0.1 * q /\
  entry out (3 + 1) 0 = entry (eye 6) 0 (3 + 1) + 0.1 * q /\
  entry out (3 + 0) (3 + 1) = entry (eye 6) (3 + 0) (3 + 1) + q.
Proof.
  apply (update_adds_outer_product (eye 6) [0.1; 0.2; 0.3] 0 1).
  - exact shape_eye6.
  - reflexivity.
  - lia.
  - lia.
Defined.

Lemma update_opposite_burn (cov : matrix) (dv : vector) :
  shape 6 6 cov -> length dv = 3%nat ->
  update_covariance_with_vector cov (vopp dv) = update_covariance_with_vector cov dv.
Proof.
  intros H Hdv. explode66 H. cbn [vopp map]. run_update.
  repeat (f_equal; try lra).
Qed.

(** X2. A burn and the opposite burn give the same covariance: the update
    does not tell prograde from retrograde. *)
Theorem update_ignores_burn_sign (cov : matrix) (dv : vector) :
  shape 6 6 cov -> length dv = 3%nat ->
  update_covariance_with_vector cov (vopp dv) = update_covariance_with_vector cov dv.
Proof.
  intros H Hdv.
  destruct (vector3_inv _ Hdv) as (x & y & z & ->). clear Hdv.
  explode66 H. cbn [vopp map].
  rewrite !update_assemble. unfold noise. cbn [outer mscale map].
  f_equal. repeat (f_equal; try ring).
Qed.

Lemma update_ignores_burn_sign_witness :
  update_covariance_with_vector (eye 6) (vopp [0.1; 0.2; 0.3])
  = update_covariance_with_vector (eye 6) [0.1; 0.2; 0.3].
Proof.
  apply (update_ignores_burn_sign (eye 6) [0.1; 0.2; 0.3]).
  - exact shape_eye6.
  - reflexivity.
Defined.

(** X3. Two burns applied one after the other give the same covariance in
    either order. *)
Theorem update_burns_commute (cov : matrix) (dv1 dv2 : vector) :
  shape 6 6 cov -> length dv1 = 3%nat -> length dv2 = 3%nat ->
  update_covariance_with_vector (update_covariance_with_vector cov dv1) dv2
  = update_covariance_with_vector (update_covariance_with_vector cov dv2) dv1.
Proof.
  intros H Hdv1 Hdv2. explode66 H. run_update.
  repeat (f_equal; try lra).
Qed.

Lemma update_burns_commute_witness :
  update_covariance_with_vector
    (update_covariance_with_vector (eye 6) [0.1; 0.2; 0.3]) [1; 0; 0]
  = update_covariance_with_vector
      (update_covariance_with_vector (eye 6) [1; 0; 0]) [0.1; 0.2; 0.3].
Proof.
  apply (update_burns_commute (eye 6) [0.1; 0.2; 0.3] [1; 0; 0]).
  - exact shape_eye6.
  - reflexivity.
  - reflexivity.
Defined.

(** X4. The added variance grows with the square of the burn: scaling the
    delta-V by [k] scales what every entry of the velocity block gains by
    [k^2]. *)
Theorem update_gain_quadratic_in_scale (cov : matrix) (dv : vector) (k : R) (i j : nat) :
  shape 6 6 cov -> length dv = 3%nat -> (i < 3)%nat -> (j < 3)%nat ->
  entry (update_covariance_with_vector cov (vscale k dv)) (3 + i) (3 + j)
  - entry cov (3 + i) (3 + j)
  = k ^ 2 * (entry (update_covariance_with_vector cov dv) (3 + i) (3 + j)
             - entry cov (3 + i) (3 + j)).
Proof.
  intros H Hdv Hi Hj. explode66 H. cbn [vscale map]. run_update.
  cases3 i; cases3 j; cbn [entry nth Nat.add]; lra.
Qed.

Lemma update_gain_quadratic_in_scale_witness :
  entry (update_covariance_with_vector (eye 6) (vscale 2 [0.1; 0.2; 0.3])) (3 + 0) (3 + 1)
  - entry (eye 6) (3 + 0) (3 + 1)
  = 2 ^ 2 * (entry (update_covariance_with_vector (eye 6) [0.1; 0.2; 0.3]) (3 + 0) (3 + 1)
             - entry (eye 6) (3 + 0) (3 + 1)).
Proof.
  apply (update_gain_quadratic_in_scale (eye 6) [0.1; 0.2; 0.3] 2 0 1).
  - exact shape_eye6.
  - reflexivity.
  - lia.
  - lia.
Defined.

(** X5. No variance decreases: every diagonal entry of the output is at
    least the diagonal entry of the input. *)
Theorem update_never_lowers_a_variance (cov : matrix) (dv : vector) (i : nat) :
  shape 6 6 cov -> length dv = 3%nat -> (i < 6)%nat ->
  entry cov i i <= entry (update_covariance_with_vector cov dv) i i.
Proof.
  intros H Hdv Hi. explode66 H. run_update.
  cases6 i; cbn [entry nth];
    match goal with |- _ <= _ + ?t => assert (0 <= t) by nra; lra end.
Qed.

Lemma update_never_lowers_a_variance_witness :
  entry (eye 6) 4 4 <= entry (update_covariance_with_vector (eye 6) [0.1; 0.2; 0.3]) 4 4.
Proof.
  apply (update_never_lowers_a_variance (eye 6) [0.1; 0.2; 0.3] 4).
  - exact shape_eye6.
  - reflexivity.
  - lia.
Defined.

(** X6. The velocity uncertainty grows along the burn only: the variance of
    the velocity block along a direction [w] gains [0.05^2 * (dv . w)^2],
    nothing when [w] is orthogonal to the delta-V. *)
Theorem velocity_variance_along_direction (cov : matrix) (dv w : vector) :
  shape 6 6 cov -> length dv = 3%nat -> length w = 3%nat ->
  quad (velocity_block (update_covariance_with_vector cov dv)) w
  = quad (velocity_block cov) w + 0.05 ^ 2 * dot dv w ^ 2.
Proof.
  intros H Hdv Hw.
  destruct (vector3_inv _ Hdv) as (x & y & z & ->). clear Hdv.
  destruct (vector3_inv _ Hw) as (w0 & w1 & w2 & ->). clear Hw.
  explode66 H. unfold quad, velocity_block. run_update. linalg_steps. ring.
Qed.

Lemma velocity_variance_along_direction_witness :
  quad (velocity_block (update_covariance_with_vector (eye 6) [1; 0; 0])) [0; 1; 0]
  = quad (velocity_block (eye 6)) [0; 1; 0] + 0.05 ^ 2 * dot [1; 0; 0] [0; 1; 0] ^ 2.
Proof.
  apply (velocity_variance_along_direction (eye 6) [1; 0; 0] [0; 1; 0]).
  - exact shape_eye6.
  - reflexivity.
  - reflexivity.
Defined.

(** X7. A valid covariance stays valid: when the input is positive
    semi-definite and its cross blocks mirror each other, the output is
    positive semi-definite. *)
Theorem update_preserves_psd (cov : matrix) (dv : vector) :
  shape 6 6 cov -> length dv = 3%nat -> cross_mirrored cov -> psd cov ->
  psd (update_covariance_with_vector cov dv).
Proof.
  intros H Hdv Hm Hpsd.
  destruct (vector3_inv _ Hdv) as (x & y & z & ->). clear Hdv.
  explode66 H.
  for_idx6 ltac:(fun i => for_idx6 ltac:(fun j =>
    try (let F := fresh "E" in
         pose proof (Hm i j ltac:(lia) ltac:(lia)) as F;
         cbn [entry nth Nat.add] in F))).
  subst_vars. run_update.
  intros w Hw. cbn [length] in Hw.
  destruct (vector6_inv _ Hw) as (w0 & w1 & w2 & w3 & w4 & w5 & ->). clear Hw.
  assert (Hq := Hpsd [w0; w1; w2; w3; w4; w5] eq_refl).
  pose proof (Rle_0_sqr (x * (w0 + w3) + y * (w1 + w4) + z * (w2 + w5))) as Hs1.
  pose proof (Rle_0_sqr (x * w3 + y * w4 + z * w5)) as Hs2.
  unfold Rsqr in Hs1, Hs2.
  revert Hq. linalg_steps. intros Hq. lra.
Qed.

Lemma psd_eye6 : psd (eye 6).
Proof.
  intros w Hw. cbn [eye map seq length] in Hw.
  destruct (vector6_inv _ Hw) as (w0 & w1 & w2 & w3 & w4 & w5 & ->).
  linalg_steps. nra.
Qed.

Lemma update_preserves_psd_witness :
  psd (update_covariance_with_vector (eye 6) [0.1; 0.2; 0.3]).
Proof.
  apply (update_preserves_psd (eye 6) [0.1; 0.2; 0.3]).
  - exact shape_eye6.
  - reflexivity.
  - exact (symmetric_cross_mirrored (eye 6) symmetric_eye6).
  - exact psd_eye6.
Defined.

(** * Further properties of the orbit radius *)

Lemma sqrt2_facts : sqrt 2 * sqrt 2 = 2 /\ 1 < sqrt 2.
Proof.
  assert (Hs : sqrt 2 * sqrt 2 = 2) by (apply sqrt_sqrt; lra).
  split; [exact Hs |].
  pose proof (sqrt_pos 2). nra.
Qed.

(** Twice the energy splits into the two factors that vanish at the
    parabolic speeds. *)
Lemma post_burn_energy_factors (a delta_v mu : R) :
  0 < a -> 0 < mu ->
  let v := sqrt (mu / a) in
  2 * post_burn_energy a delta_v mu
  = (delta_v - (sqrt 2 - 1) * v) * (delta_v + (sqrt 2 + 1) * v).
Proof.
  intros Ha Hmu v.
  destruct (circular_speed_sqr a mu Ha Hmu) as (Hsq & _ & _). fold v in Hsq.
  destruct sqrt2_facts as (Hs & _).
  unfold post_burn_energy. fold v. rewrite <- Hsq.
  set (s := sqrt 2) in *. nra.
Qed.

Lemma calculate_delta_r_zero_radius (delta_v mu : R) :
  calculate_delta_r 0 delta_v mu = Raise ZeroDivisionError.
Proof.
  unfold calculate_delta_r, Py.truediv, Py.bind.
  destruct (Req_dec_T 0 0) as [_ | Hnz]; [reflexivity | contradiction].
Qed.

Lemma calculate_delta_r_negative_radius (a delta_v mu : R) :
  0 < mu -> a < 0 -> calculate_delta_r a delta_v mu = Raise ValueError.
Proof.
  intros Hmu Hneg. unfold calculate_delta_r, Py.truediv, Py.math_sqrt, Py.bind.
  destruct (Req_dec_T a 0) as [Hz | _]; [lra |].
  assert (Hq : mu / a < 0).
  { unfold Rdiv. assert (/ a < 0) by (apply Rinv_lt_0_compat; assumption). nra. }
  destruct (Rlt_dec (mu / a) 0); [reflexivity | contradiction].
Qed.

(** X8. [calculate_delta_r] does not check its radius: a zero semi-major
    axis raises [ZeroDivisionError], and a negative one (with a positive
    [mu]) raises [ValueError] from [math.sqrt]. *)
Theorem calculate_delta_r_bad_radius (a delta_v mu : R) :
  0 < mu ->
  (a = 0 -> calculate_delta_r a delta_v mu = Raise ZeroDivisionError) /\
  (a < 0 -> calculate_delta_r a delta_v mu = Raise ValueError).
Proof.
  intros Hmu. split.
  - intros ->. apply calculate_delta_r_zero_radius.
  - intros Hneg. apply calculate_delta_r_negative_radius; assumption.
Qed.

Lemma calculate_delta_r_bad_radius_witness :
  calculate_delta_r 0 500 mu_default = Raise ZeroDivisionError /\
  calculate_delta_r (- 7000000) 500 mu_default = Raise ValueError.
Proof.
  split.
  - apply (proj1 (calculate_delta_r_bad_radius 0 500 mu_default mu_default_pos)).
    reflexivity.
  - apply (proj2 (calculate_delta_r_bad_radius (- 7000000) 500 mu_default mu_default_pos)).
    lra.
Defined.

(** X9. On a valid orbit ([a > 0], [mu > 0]) the function raises exactly at
    the two parabolic burns, [delta_v = (sqrt 2 - 1) * v] and
    [delta_v = - (sqrt 2 + 1) * v] with [v = sqrt (mu / a)], where the energy
    is zero; the exception is [ZeroDivisionError].  Everywhere else it
    returns. *)
Theorem calculate_delta_r_raises_iff_parabolic (a delta_v mu : R) :
  0 < a -> 0 < mu ->
  let v := sqrt (mu / a) in
  let parabolic := delta_v = (sqrt 2 - 1) * v \/ delta_v = - (sqrt 2 + 1) * v in
  (parabolic -> calculate_delta_r a delta_v mu = Raise ZeroDivisionError) /\
  (~ parabolic -> exists delta_r a_new,
      calculate_delta_r a delta_v mu = Ok (delta_r, a_new)).
Proof.
  intros Ha Hmu v parabolic. subst parabolic.
  pose proof (post_burn_energy_factors a delta_v mu Ha Hmu) as Hf.
  cbv zeta in Hf. fold v in Hf. split.
  - intros Hp. apply calculate_delta_r_zero_energy; try assumption.
    destruct Hp as [-> | ->]; nra.
  - intros Hnp. do 2 eexists. apply calculate_delta_r_defined; try assumption.
    intros HE. rewrite HE, Rmult_0_r in Hf. symmetry in Hf.
    apply Rmult_integral in Hf. apply Hnp. destruct Hf; [left | right]; lra.
Qed.

Lemma calculate_delta_r_raises_iff_parabolic_witness :
  calculate_delta_r 7000000 ((sqrt 2 - 1) * sqrt (mu_default / 7000000)) mu_default
  = Raise ZeroDivisionError.
Proof.
  apply (proj1 (calculate_delta_r_raises_iff_parabolic
                  7000000 ((sqrt 2 - 1) * sqrt (mu_default / 7000000)) mu_default
                  ltac:(lra) mu_default_pos)).
  left. reflexivity.
Defined.

(** X10. On a valid orbit the returned [a_new] is positive exactly when the
    burn stays strictly between the two parabolic burns; outside it is
    negative. *)
Theorem a_new_positive_iff_bound (a delta_v mu delta_r a_new : R) :
  0 < a -> 0 < mu ->
  calculate_delta_r a delta_v mu = Ok (delta_r, a_new) ->
  let v := sqrt (mu / a) in
  (0 < a_new <-> - (sqrt 2 + 1) * v < delta_v < (sqrt 2 - 1) * v) /\
  (a_new < 0 <-> delta_v < - (sqrt 2 + 1) * v \/ (sqrt 2 - 1) * v < delta_v).
Proof.
  intros Ha Hmu Hrun v.
  pose proof (post_burn_energy_factors a delta_v mu Ha Hmu) as Hf.
  cbv zeta in Hf. fold v in Hf.
  destruct (circular_speed_sqr a mu Ha Hmu) as (_ & Hv & _). fold v in Hv.
  destruct sqrt2_facts as (_ & Hs).
  destruct (Req_dec_T (post_burn_energy a delta_v mu) 0) as [Hz | Hnz].
  { rewrite calculate_delta_r_zero_energy in Hrun by assumption. discriminate. }
  rewrite calculate_delta_r_defined in Hrun by assumption.
  injection Hrun as _ <-.
  set (E := post_burn_energy a delta_v mu) in *.
  set (lo := - (sqrt 2 + 1) * v). set (hi := (sqrt 2 - 1) * v).
  assert (Hlohi : lo < hi) by (unfold lo, hi; nra).
  assert (Hf' : 2 * E = (delta_v - hi) * (delta_v - lo)) by (unfold lo, hi; lra).
  assert (Hsign : (E < 0 <-> lo < delta_v < hi) /\ (0 < E <-> delta_v < lo \/ hi < delta_v)).
  { split; split.
    - intros HE. split; nra.
    - intros [H1 H2]. nra.
    - intros HE. destruct (Rlt_dec delta_v lo); [left; assumption | right; nra].
    - intros [H1 | H1]; nra. }
  assert (Han : (0 < - mu / (2 * E) <-> E < 0) /\ (- mu / (2 * E) < 0 <-> 0 < E)).
  { assert (Hinv : E < 0 -> / (2 * E) < 0) by (intros; apply Rinv_lt_0_compat; lra).
    assert (Hinv' : 0 < E -> 0 < / (2 * E)) by (intros; apply Rinv_0_lt_compat; lra).
    unfold Rdiv.
    destruct (Rlt_dec E 0) as [Hneg | Hnneg].
    - specialize (Hinv Hneg). split; split; intros; try assumption; nra.
    - assert (Hpos : 0 < E) by lra. specialize (Hinv' Hpos).
      split; split; intros; try assumption; nra. }
  destruct Hsign as [Hs1 Hs2]. destruct Han as [Ha1 Ha2].
  split; [rewrite Ha1; exact Hs1 | rewrite Ha2; exact Hs2].
Qed.

Lemma a_new_positive_iff_bound_witness :
  let v := sqrt (mu_default / 7000000) in
  (0 < 7000000 <-> - (sqrt 2 + 1) * v < 0 < (sqrt 2 - 1) * v) /\
  (7000000 < 0 <-> 0 < - (sqrt 2 + 1) * v \/ (sqrt 2 - 1) * v < 0).
Proof.
  apply (a_new_positive_iff_bound 7000000 0 mu_default 0 7000000).
  - lra.
  - exact mu_default_pos.
  - apply zero_burn_round_trip; [lra | exact mu_default_pos].
Defined.

(** X11. A larger burn gives a larger orbit: on a valid orbit, for two burns
    that keep the speed forward and stay below the parabolic burn, the
    larger [delta_v] returns the larger [a_new] and the larger [delta_r]. *)
Theorem a_new_increases_with_delta_v (a mu dv1 dv2 : R) :
  0 < a -> 0 < mu ->
  - sqrt (mu / a) <= dv1 -> dv1 < dv2 -> dv2 < (sqrt 2 - 1) * sqrt (mu / a) ->
  exists dr1 an1 dr2 an2,
    calculate_delta_r a dv1 mu = Ok (dr1, an1) /\
    calculate_delta_r a dv2 mu = Ok (dr2, an2) /\
    an1 < an2 /\ dr1 < dr2.
Proof.
  intros Ha Hmu Hlo Hlt Hhi.
  destruct (circular_speed_sqr a mu Ha Hmu) as (Hsq & Hv & Hq).
  destruct sqrt2_facts as (Hs2 & Hs1).
  assert (HE : forall dv, - sqrt (mu / a) <= dv -> dv < (sqrt 2 - 1) * sqrt (mu / a) ->
                          post_burn_energy a dv mu < 0).
  { intros dv H1 H2. pose proof (post_burn_energy_factors a dv mu Ha Hmu) as Hf.
    cbv zeta in Hf. set (v := sqrt (mu / a)) in *. set (s := sqrt 2) in *. nra. }
  assert (HE1 : post_burn_energy a dv1 mu < 0) by (apply HE; lra).
  assert (HE2 : post_burn_energy a dv2 mu < 0) by (apply HE; lra).
  assert (HE12 : post_burn_energy a dv1 mu < post_burn_energy a dv2 mu).
  { unfold post_burn_energy. set (v := sqrt (mu / a)) in *. nra. }
  do 4 eexists.
  split; [apply calculate_delta_r_defined; try assumption; lra |].
  split; [apply calculate_delta_r_defined; try assumption; lra |].
  set (E1 := post_burn_energy a dv1 mu) in *. set (E2 := post_burn_energy a dv2 mu) in *.
  assert (Han : - mu / (2 * E1) < - mu / (2 * E2)).
  { rewrite <- (Rdiv_opp_opp_cancel (- mu) (2 * E1)) by lra.
    rewrite <- (Rdiv_opp_opp_cancel (- mu) (2 * E2)) by lra.
    rewrite Ropp_involutive. unfold Rdiv.
    apply Rmult_lt_compat_l; [assumption |].
    apply Rinv_lt_contravar; [| lra].
    apply Rmult_lt_0_compat; lra. }
  split; lra.
Qed.

Lemma a_new_increases_with_delta_v_witness :
  exists dr1 an1 dr2 an2,
    calculate_delta_r mu_default 0 mu_default = Ok (dr1, an1) /\
    calculate_delta_r mu_default 0.25 mu_default = Ok (dr2, an2) /\
    an1 < an2 /\ dr1 < dr2.
Proof.
  pose proof mu_default_pos as Hmu.
  destruct sqrt2_facts as (Hs2 & Hs1).
  assert (H14 : 1.4 < sqrt 2) by (pose proof (sqrt_pos 2); nra).
  apply (a_new_increases_with_delta_v mu_default mu_default 0 0.25 Hmu Hmu).
  - rewrite circular_speed_one. lra.
  - lra.
  - rewrite circular_speed_one. lra.
Defined.

Lemma post_burn_energy_reversal (a delta_v mu : R) :
  post_burn_energy a (- 2 * sqrt (mu / a) - delta_v) mu = post_burn_energy a delta_v mu.
Proof. unfold post_burn_energy. set (v := sqrt (mu / a)). nra. Qed.

(** X12. The result depends on the post-burn speed only through its square:
    the burn [- 2 * sqrt (mu / a) - delta_v], which reverses the post-burn
    velocity of [delta_v], returns the same radii or raises the same
    exception. *)
Theorem calculate_delta_r_ignores_reversal (a delta_v mu : R) :
  0 < a -> 0 < mu ->
  calculate_delta_r a (- 2 * sqrt (mu / a) - delta_v) mu = calculate_delta_r a delta_v mu.
Proof.
  intros Ha Hmu. pose proof (post_burn_energy_reversal a delta_v mu) as Hrev.
  destruct (Req_dec_T (post_burn_energy a delta_v mu) 0) as [Hz | Hnz].
  - rewrite !calculate_delta_r_zero_energy by (try assumption; lra). reflexivity.
  - rewrite !calculate_delta_r_defined by (try assumption; lra).
    rewrite Hrev. reflexivity.
Qed.

Lemma calculate_delta_r_ignores_reversal_witness :
  calculate_delta_r 7000000 (- 2 * sqrt (mu_default / 7000000) - 500) mu_default
  = calculate_delta_r 7000000 500 mu_default.
Proof.
  apply (calculate_delta_r_ignores_reversal 7000000 500 mu_default).
  - lra.
  - exact mu_default_pos.
Defined.



(** * Further properties of the risk pipeline *)

Lemma norm3_opp (dv : vector) : length dv = 3%nat -> norm (vopp dv) = norm dv.
Proof.
  intros Hdv. destruct (vector3_inv _ Hdv) as (x & y & z & ->).
  unfold norm, dot, zipWith, sum. simpl. f_equal. ring.
Qed.


(** The covariance handed to [compute_collision_probability]: the position
    block of the input plus a tenth of the noise. *)
Lemma position_block_update (cov : matrix) (dv : vector) :
  shape 6 6 cov -> length dv = 3%nat ->
  position_block (update_covariance_with_vector cov dv)
  = madd (position_block cov) (mscale 0.1 (noise dv)).
Proof.
  intros H Hdv. explode66 H. unfold position_block. run_update. reflexivity.
Qed.


Section RiskExtras.

Variable ncx2_cdf : R -> R -> R -> R.

Lemma collision_probability_at_mean (P : matrix) (r : R) :
  det3 P <> 0 ->
  compute_collision_probability ncx2_cdf [0; 0; 0] P r = Ok (ncx2_cdf (r ^ 2) 3 0).
Proof.
  intros Hnz. unfold compute_collision_probability, inv.
  destruct (Req_dec_T (det3 P) 0); [contradiction |].
  cbv zeta. do 2 f_equal. linalg_steps. ring.
Qed.

(** X14. With a zero relative position the covariance drops out: for every
    invertible 3x3 covariance the result is the distribution function at the
    squared radius with noncentrality 0. *)
Theorem collision_probability_zero_offset (P : matrix) (r : R) :
  shape 3 3 P -> invertible3 P ->
  compute_collision_probability ncx2_cdf [0; 0; 0] P r = Ok (ncx2_cdf (r ^ 2) 3 0).
Proof.
  intros HP Hinv. apply collision_probability_at_mean.
  apply invertible3_iff_det; assumption.
Qed.

(** X15. The collision radius enters through its square only: a negative
    radius is not rejected and gives the result of its absolute value. *)
Theorem collision_probability_ignores_radius_sign (d : vector) (P : matrix) (r : R) :
  length d = 3%nat -> shape 3 3 P ->
  compute_collision_probability ncx2_cdf d P (- r)
  = compute_collision_probability ncx2_cdf d P r.
Proof.
  intros _ _. unfold compute_collision_probability.
  destruct (inv P) as [B | e]; [| reflexivity].
  cbv zeta. replace ((- r) ^ 2) with (r ^ 2) by ring. reflexivity.
Qed.


(** X16. [compute_risk] does not check the initial radius and does not catch
    the errors of [calculate_delta_r]: a zero radius raises
    [ZeroDivisionError] and a negative radius raises [ValueError], whatever
    the risk, the burn and the covariance are. *)
Theorem compute_risk_bad_radius (original_risk : R) (dv : vector) (cov : matrix) (a : R) :
  shape 6 6 cov -> length dv = 3%nat ->
  (a = 0 -> compute_risk ncx2_cdf original_risk dv cov a = Raise ZeroDivisionError) /\
  (a < 0 -> compute_risk ncx2_cdf original_risk dv cov a = Raise ValueError).
Proof.
  intros _ _. unfold compute_risk. split.
  - intros ->. rewrite calculate_delta_r_zero_radius. reflexivity.
  - intros Hneg.
    rewrite calculate_delta_r_negative_radius by (try assumption; exact mu_default_pos).
    reflexivity.
Qed.


(** X18. The updated risk is proportional to the original risk: scaling the
    original risk by [k] scales the returned value by [k] and changes no
    exception. *)
Theorem compute_risk_linear_in_original_risk
        (k original_risk : R) (dv : vector) (cov : matrix) (a : R) :
  shape 6 6 cov -> length dv = 3%nat ->
  compute_risk ncx2_cdf (k * original_risk) dv cov a
  = map_result (Rmult k) (compute_risk ncx2_cdf original_risk dv cov a).
Proof.
  intros _ _. unfold compute_risk.
  destruct (calculate_delta_r a (norm dv) mu_default) as [[delta_r a_new] | e];
    [| reflexivity].
  cbn [Py.bind].
  match goal with |- context [compute_collision_probability ?f ?d ?P ?r] =>
    destruct (compute_collision_probability f d P r) as [p | e] end;
    [| reflexivity].
  cbn [Py.bind map_result]. f_equal. ring.
Qed.


(** X20. Of the covariance only the position block matters: two 6x6 inputs
    with the same position block give the same risk, or the same exception. *)
Theorem compute_risk_reads_position_block_only
        (original_risk : R) (dv : vector) (cov1 cov2 : matrix) (a : R) :
  shape 6 6 cov1 -> shape 6 6 cov2 -> length dv = 3%nat ->
  position_block cov1 = position_block cov2 ->
  compute_risk ncx2_cdf original_risk dv cov1 a
  = compute_risk ncx2_cdf original_risk dv cov2 a.
Proof.
  intros H1 H2 Hdv Hpos. unfold compute_risk.
  fold (position_block (update_covariance_with_vector cov1 dv)).
  fold (position_block (update_covariance_with_vector cov2 dv)).
  rewrite !position_block_update by assumption. rewrite Hpos. reflexivity.
Qed.

(** X21. The pipeline does not tell a burn from the opposite burn: [dv] and
    [- dv] give the same risk, or the same exception. *)
Theorem compute_risk_ignores_burn_sign
        (original_risk : R) (dv : vector) (cov : matrix) (a : R) :
  shape 6 6 cov -> length dv = 3%nat ->
  compute_risk ncx2_cdf original_risk (vopp dv) cov a
  = compute_risk ncx2_cdf original_risk dv cov a.
Proof.
  intros Hcov Hdv. unfold compute_risk.
  rewrite norm3_opp by assumption.
  rewrite update_opposite_burn by assumption. reflexivity.
Qed.

End RiskExtras.

(** ** Instances of the further properties *)

Lemma collision_probability_zero_offset_witness :
  compute_collision_probability point_mass_cdf [0; 0; 0] (eye 3) 10
  = Ok (point_mass_cdf (10 ^ 2) 3 0).
Proof.
  apply (collision_probability_zero_offset point_mass_cdf (eye 3) 10).
  - exact shape_eye3.
  - exact invertible_eye3.
Defined.

Lemma collision_probability_ignores_radius_sign_witness :
  compute_collision_probability point_mass_cdf [3; 4; 0] (eye 3) (- 10)
  = compute_collision_probability point_mass_cdf [3; 4; 0] (eye 3) 10.
Proof.
  apply (collision_probability_ignores_radius_sign point_mass_cdf [3; 4; 0] (eye 3) 10).
  - reflexivity.
  - exact shape_eye3.
Defined.

Lemma compute_risk_bad_radius_witness :
  compute_risk point_mass_cdf 0.5 [3; 4; 0] (eye 6) 0 = Raise ZeroDivisionError /\
  compute_risk point_mass_cdf 0.5 [3; 4; 0] (eye 6) (- 7000000) = Raise ValueError.
Proof.
  split.
  - apply (proj1 (compute_risk_bad_radius point_mass_cdf 0.5 [3; 4; 0] (eye 6) 0
                    shape_eye6 eq_refl)).
    reflexivity.
  - apply (proj2 (compute_risk_bad_radius point_mass_cdf 0.5 [3; 4; 0] (eye 6) (- 7000000)
                    shape_eye6 eq_refl)).
    lra.
Defined.


Lemma compute_risk_linear_in_original_risk_witness :
  compute_risk point_mass_cdf (2 * 0.25) [3; 4; 0] (eye 6) 7000000
  = map_result (Rmult 2) (compute_risk point_mass_cdf 0.25 [3; 4; 0] (eye 6) 7000000).
Proof.
  apply (compute_risk_linear_in_original_risk point_mass_cdf 2 0.25 [3; 4; 0] (eye 6) 7000000).
  - exact shape_eye6.
  - reflexivity.
Defined.


Lemma compute_risk_reads_position_block_only_witness :
  compute_risk point_mass_cdf 0.5 [3; 4; 0] (zeros 6 6) 7000000
  = compute_risk point_mass_cdf 0.5 [3; 4; 0] unmirrored_cross 7000000.
Proof.
  apply (compute_risk_reads_position_block_only point_mass_cdf 0.5 [3; 4; 0]
           (zeros 6 6) unmirrored_cross 7000000).
  - split; [reflexivity | repeat constructor].
  - split; [reflexivity | repeat constructor].
  - reflexivity.
  - reflexivity.
Defined.

Lemma compute_risk_ignores_burn_sign_witness :
  compute_risk point_mass_cdf 0.5 (vopp [3; 4; 0]) (eye 6) 7000000
  = compute_risk point_mass_cdf 0.5 [3; 4; 0] (eye 6) 7000000.
Proof.
  apply (compute_risk_ignores_burn_sign point_mass_cdf 0.5 [3; 4; 0] (eye 6) 7000000).
  - exact shape_eye6.
  - reflexivity.
Defined.
